(** * vault-manager: the top-level configuration registry, the item diff
    engine and the audit-device configuration, embedded in Rocq.

    Sources: [toplevel/toplevel.go] (registry) and the audit package
    (file without a known name, [package audit]).  The diff engine
    [vault.DiffItems] lives in [pkg/vault], which is not part of the
    sources at hand; it is modelled from the specification (section 4.2). *)

From Stdlib Require Import Ascii String List Bool.
From stdpp Require Import base gmap strings list.
Import ListNotations.

Open Scope string_scope.

(* ------------------------------------------------------------------ *)
(** ** Go's [strings.ToLower] on ASCII input

    The registry below is parametric in [strings.ToLower] (which in Go is
    Unicode-aware).  On ASCII-only input Go takes its ASCII fast path, which
    maps ['A'..'Z'] to ['a'..'z'] and leaves every other byte unchanged;
    [ToLower_ascii] is that fast path, used to run the registry on concrete
    ASCII names. *)

Definition ascii_lower (c : ascii) : ascii :=
  let n := nat_of_ascii c in
  if (65 <=? n)%nat && (n <=? 90)%nat then ascii_of_nat (n + 32) else c.

Fixpoint ToLower_ascii (s : string) : string :=
  match s with
  | EmptyString => EmptyString
  | String c s' => String (ascii_lower c) (ToLower_ascii s')
  end.

(* ------------------------------------------------------------------ *)
(** ** Package [toplevel]: the configuration registry *)

Module Toplevel.
Section Registry.

(** [Configuration] values (handlers); a Go interface value is either
    [nil] ([None]) or a handler ([Some h]). *)
Context {Configuration : Type}.

(** Go's [strings.ToLower]; every statement about the registry holds for
    any function in its place. *)
Variable ToLower : string -> string.

(** The process-wide map [configs]. *)
Definition registry := gmap string Configuration.

(** [RegisterConfiguration] either panics (with its message) or returns
    the updated map. *)
Inductive reg_result :=
| RegPanic (msg : string)
| RegOk (configs : registry).

(** toplevel.go, lines 29-48. *)
Definition RegisterConfiguration (configs : registry) (name : string)
    (c : option Configuration) : reg_result :=
  if String.eqb name "" then
    RegPanic "toplevel: could not register a Configuration with an empty name"
  else
    match c with
    | None => RegPanic "toplevel: could not register a nil Configuration"
    | Some h =>
        let name := ToLower name in
        match configs !! name with
        | Some _ => RegPanic ("toplevel: RegisterConfiguration called twice for " ++ name)
        | None => RegOk (<[name := h]> configs)
        end
    end.

(** Observable effects of [Apply]: a fatal log (which exits the process),
    carrying the ["name"] field, or one call of the handler's [Apply]. *)
Inductive top_event :=
| TFatal (name : string) (msg : string)
| TCall (c : Configuration) (cfg : list Byte.byte) (dryRun : bool).

(** toplevel.go, lines 52-60: the map is indexed by [name] as given. *)
Definition Apply (configs : registry) (name : string) (cfg : list Byte.byte)
    (dryRun : bool) : list top_event :=
  match configs !! name with
  | None => [TFatal name "failed to find top-level configuration"]
  | Some c => [TCall c cfg dryRun]
  end.

End Registry.
End Toplevel.

(* ------------------------------------------------------------------ *)
(** ** Package [vault]: the diff engine *)

Module Vault.
Section Diff.

(** The [Item] contract: [Key()] and [Equals(other)]. *)
Context {Item : Type} (Key : Item -> string) (Equals : Item -> Item -> bool).

(** Modelled from the spec: [vault.DiffItems] (pkg/vault, not among the
    sources), section 4.2 step 1: the first observed item whose key equals
    the key of [d]. *)
Definition find_key (d : Item) (observed : list Item) : option Item :=
  List.find (fun o => String.eqb (Key o) (Key d)) observed.

(** Modelled from the spec: [vault.DiffItems], section 4.2.  [toWrite]
    keeps, in desired order, every desired item with no observed item of
    the same key or whose observed counterpart is not [Equals]; [toDelete]
    keeps, in observed order, every observed item not exactly matched
    (same key and [Equals]) by some desired item. *)
Definition DiffItems (desired observed : list Item) : list Item * list Item :=
  (List.filter
     (fun d => match find_key d observed with
               | None => true
               | Some o => negb (Equals d o)
               end) desired,
   List.filter
     (fun o => negb (existsb (fun d => String.eqb (Key d) (Key o) && Equals d o)
                             desired)) observed).

(** Unique keys within one sequence. *)
Definition unique_keys (xs : list Item) : Prop := NoDup (map Key xs).

End Diff.
End Vault.

(* ------------------------------------------------------------------ *)
(** ** Package [audit] *)

Module Audit.

(** [entry]; the Go field [Type] is renamed [Type_]. *)
Record entry := mk_entry {
  Path : string;
  Type_ : string;
  Description : string;
  Options : gmap string string
}.

(** Go [interface{}] values as far as the audit code inspects them: an
    [entry], a string (the values of [ambiguousOptions]), nil, or a value of
    some other concrete type (named by [type_name]). *)
Inductive gvalue :=
| GEntry (e : entry)
| GString (s : string)
| GNil
| GOther (type_name : string).

(** [api.Audit] as returned by [Sys().ListAudit()]. *)
Record api_audit := mk_api_audit {
  a_Path : string;
  a_Type : string;
  a_Description : string;
  a_Options : gmap string string
}.

(** Result of [ListAudit()]: an error, a nil map, or a map, given by the
    entries in the order Go's range visits them. *)
Inductive list_result :=
| ListErr
| ListNil
| ListMap (audits : list api_audit).

(** Remote calls issued to Vault. *)
Inductive remote_call :=
| CListAudit
| CEnableAudit (path type_ description : string) (options : gmap string string)
| CDisableAudit (path : string).

(** Observable effects: remote calls, info logs and fatal logs. *)
Inductive event :=
| EvCall (c : remote_call)
| EvInfo (msg : string) (subject : gvalue)
| EvFatal (msg : string).

(** A writer-and-exit monad: the trace produced so far, and [None] once
    [logrus.Fatal] has exited the process. *)
Definition M (A : Type) : Type := list event * option A.

Definition ret {A} (a : A) : M A := ([], Some a).

Definition bind {A B} (m : M A) (f : A -> M B) : M B :=
  match m with
  | (t, None) => (t, None)
  | (t, Some a) => let (t', r) := f a in ((t ++ t')%list, r)
  end.

Notation "x <- m ;; k" := (bind m (fun x => k))
  (at level 64, m at next level, right associativity).
Notation "m ;;; k" := (bind m (fun _ : unit => k))
  (at level 64, right associativity).

Definition emit (ev : event) : M unit := ([ev], Some tt).

Definition fatal {A} (msg : string) : M A := ([EvFatal msg], None).

Fixpoint mapM_ {A} (f : A -> M unit) (xs : list A) : M unit :=
  match xs with
  | [] => ret tt
  | x :: xs' => f x ;;; mapM_ f xs'
  end.

Section AuditConfig.

(** [vault.EqualPathNames] and [vault.OptionsEqual] live in pkg/vault,
    outside the sources; the development is parametric in them. *)
Variable EqualPathNames : string -> string -> bool.
Variable OptionsEqual : gmap string gvalue -> gmap string gvalue -> bool.

Definition Key (e : entry) : string := Path e.

Definition ambiguousOptions (e : entry) : gmap string gvalue :=
  GString <$> Options e.

(** [entry.Equals], lines 27-37: the type assertion [i.(entry)] with the
    comma-ok form. *)
Definition Equals (e : entry) (i : gvalue) : bool :=
  match i with
  | GEntry en =>
      EqualPathNames (Path e) (Path en) &&
      String.eqb (Type_ e) (Type_ en) &&
      String.eqb (Description e) (Description en) &&
      OptionsEqual (ambiguousOptions e) (ambiguousOptions en)
  | _ => false
  end.

(** The items handed to [DiffItems] are all entries, so [Equals] is used
    at an entry argument. *)
Definition item_Equals (a b : entry) : bool := Equals a (GEntry b).

(** [asItems], lines 125-132: a fresh slice holding the same entries. *)
Definition asItems (xs : list entry) : list entry := map (fun x => x) xs.

(** Remote outcome of each mutating call: [true] = no error. *)
Variable remote_ok : remote_call -> bool.

Definition enable (e : entry) : M unit :=
  let c := CEnableAudit (Path e) (Type_ e) (Description e) (Options e) in
  emit (EvCall c) ;;;
  if remote_ok c then emit (EvInfo "audit successfully enabled" (GString (Path e)))
  else fatal "failed to enable audit device".

Definition disable (e : entry) : M unit :=
  let c := CDisableAudit (Path e) in
  emit (EvCall c) ;;;
  if remote_ok c then emit (EvInfo "audit successfully disabled" (GString (Path e)))
  else fatal "failed to disable audit".

(** Lines 89-100: the existing entries built from the listing. *)
Definition existingAudits (enabledAudits : option (list api_audit)) : list entry :=
  match enabledAudits with
  | None => []
  | Some audits =>
      map (fun a => mk_entry (a_Path a) (a_Type a) (a_Description a) (a_Options a)) audits
  end.

(** Lines 78-81: [yaml.Unmarshal] into [[]entry]; [decode] returns
    [None] on a decode error. *)
Definition decoded (decode : list Byte.byte -> option (list entry))
    (entriesBytes : list Byte.byte) : M (list entry) :=
  match decode entriesBytes with
  | None => fatal "failed to decode Audit Devices configuration"
  | Some es => ret es
  end.

(** Lines 84-87: the answer of [ListAudit()]; [None] is a nil map. *)
Definition listed (listing : list_result) : M (option (list api_audit)) :=
  match listing with
  | ListErr => fatal "failed to list Audit Devices from Vault instance"
  | ListNil => ret None
  | ListMap xs => ret (Some xs)
  end.

(** Lines 105-122: report in dry-run mode, otherwise enable every entry
    to be written, then disable every entry to be deleted. *)
Definition act (dryRun : bool) (toBeWritten toBeDeleted : list entry) : M unit :=
  if dryRun then
    mapM_ (fun w => emit (EvInfo "[Dry Run] entry to be written" (GEntry w))) toBeWritten ;;;
    mapM_ (fun d => emit (EvInfo "[Dry Run] entry to be deleted" (GEntry d))) toBeDeleted
  else
    mapM_ enable toBeWritten ;;;
    mapM_ disable toBeDeleted.

(** [config.Apply], lines 77-123. *)
Definition config_Apply (decode : list Byte.byte -> option (list entry))
    (listing : list_result) (entriesBytes : list Byte.byte) (dryRun : bool) : M unit :=
  entries <- decoded decode entriesBytes ;;
  emit (EvCall CListAudit) ;;;
  enabledAudits <- listed listing ;;
  let '(toBeWritten, toBeDeleted) :=
    Vault.DiffItems Key item_Equals (asItems entries) (asItems (existingAudits enabledAudits)) in
  act dryRun toBeWritten toBeDeleted.

End AuditConfig.

(** Remote calls that change Vault's state. *)
Definition is_mutation (ev : event) : bool :=
  match ev with
  | EvCall (CEnableAudit _ _ _ _) | EvCall (CDisableAudit _) => true
  | _ => false
  end.

(** The remote calls issued, in order. *)
Definition mutating_calls (t : list event) : list remote_call :=
  flat_map (fun ev => match ev with
                      | EvCall ((CEnableAudit _ _ _ _) as c)
                      | EvCall ((CDisableAudit _) as c) => [c]
                      | _ => []
                      end) t.

Definition enable_call (e : entry) : remote_call :=
  CEnableAudit (Path e) (Type_ e) (Description e) (Options e).

Definition disable_call (e : entry) : remote_call := CDisableAudit (Path e).

End Audit.

(* ================================================================== *)
(** * Properties *)

(* ------------------------------------------------------------------ *)
(** ** The registry *)

Module ToplevelFacts.
Import Toplevel.

(** C4: [RegisterConfiguration] panics exactly when the name is empty, the
    handler is nil, or the lower-cased name already has an entry; otherwise
    it stores the handler under the lower-cased name. *)
Theorem RegisterConfiguration_panics_iff {H : Type} (ToLower : string -> string)
    (configs : registry (Configuration:=H)) (name : string) (c : option H) :
  ((name = "" \/ c = None \/ is_Some (configs !! ToLower name)) /\
   exists msg, RegisterConfiguration ToLower configs name c = RegPanic msg)
  \/
  (name <> "" /\ configs !! ToLower name = None /\
   exists h, c = Some h /\
     RegisterConfiguration ToLower configs name c = RegOk (<[ToLower name := h]> configs)).
Proof.
  unfold RegisterConfiguration.
  destruct (String.eqb name "") eqn:Ename.
  - left. split; [left; now apply String.eqb_eq | eauto].
  - assert (Hne : name <> "") by (intros ->; discriminate).
    destruct c as [h|].
    + destruct (configs !! ToLower name) as [h'|] eqn:Ehit.
      * left. split; [right; right; eauto | eauto].
      * right. repeat split; eauto.
    + left. split; [right; left; reflexivity | eauto].
Qed.

(** C1 (code_bug): a handler registered under ["audit"] is not found when
    [Apply] is asked for ["AUDIT"]: [Apply] indexes the map with the
    requested name without lower-casing it, and ends in the fatal log. *)
Theorem Apply_misses_case_variant :
  match RegisterConfiguration ToLower_ascii (∅ : registry (Configuration:=nat)) "audit" (Some 7) with
  | RegOk r =>
      Apply r "audit" [] true = [TCall 7 [] true] /\
      Apply r "AUDIT" [] true = [TFatal "AUDIT" "failed to find top-level configuration"]
  | RegPanic _ => False
  end.
Proof. vm_compute. split; reflexivity. Qed.

(** C5 (code_bug): after registering a handler under ["Audit"], [Apply]
    with that very name does not dispatch to the handler: it ends in the
    fatal log, because the handler is stored under ["audit"]. *)
Theorem Apply_registered_mixed_case_fatal :
  match RegisterConfiguration ToLower_ascii (∅ : registry (Configuration:=nat)) "Audit" (Some 7) with
  | RegOk r =>
      Apply r "Audit" [Byte.x01] false
        = [TFatal "Audit" "failed to find top-level configuration"]
  | RegPanic _ => False
  end.
Proof. vm_compute. reflexivity. Qed.

(** [Apply] is pure dispatch on the map key it is given: the stored handler
    is called once with the bytes and flag unchanged, or the fatal log
    carries the requested name. *)
Lemma Apply_dispatch {H : Type} (configs : registry (Configuration:=H)) name cfg dryRun :
  Apply configs name cfg dryRun =
  match configs !! name with
  | Some c => [TCall c cfg dryRun]
  | None => [TFatal name "failed to find top-level configuration"]
  end.
Proof. unfold Apply. destruct (configs !! name); reflexivity. Qed.

End ToplevelFacts.

(* ------------------------------------------------------------------ *)
(** ** The diff engine *)

Module VaultFacts.
Import Vault.

Section DiffFacts.
Context {Item : Type} (Key : Item -> string) (Equals : Item -> Item -> bool).

Lemma NoDup_map_same_key (xs : list Item) x y :
  NoDup (map Key xs) -> In x xs -> In y xs -> Key x = Key y -> x = y.
Proof.
  induction xs as [|a xs IH]; simpl; intros Hnd Hx Hy Hk; [contradiction|].
  inversion Hnd as [|? ? Hnotin Hnd']; subst.
  destruct Hx as [<-|Hx], Hy as [<-|Hy]; auto.
  - exfalso. apply Hnotin, list_elem_of_In. rewrite Hk. now apply in_map.
  - exfalso. apply Hnotin, list_elem_of_In. rewrite <- Hk. now apply in_map.
Qed.

Lemma find_key_some d observed o :
  find_key Key d observed = Some o -> In o observed /\ Key o = Key d.
Proof.
  unfold find_key. intros Hf. apply find_some in Hf as [Hin Heq].
  split; [exact Hin | now apply String.eqb_eq].
Qed.

Lemma find_key_none d observed o :
  find_key Key d observed = None -> In o observed -> Key o <> Key d.
Proof.
  unfold find_key. intros Hf Hin Hk.
  pose proof (find_none _ _ Hf o Hin) as Hno.
  simpl in Hno. rewrite Hk, String.eqb_refl in Hno. discriminate.
Qed.

Lemma filter_all_false {A} (p : A -> bool) (l : list A) :
  (forall x, In x l -> p x = false) -> List.filter p l = [].
Proof.
  induction l as [|a l IH]; simpl; intros Hp; [reflexivity|].
  rewrite (Hp a (or_introl eq_refl)). apply IH. eauto.
Qed.

Lemma filter_all_true {A} (p : A -> bool) (l : list A) :
  (forall x, In x l -> p x = true) -> List.filter p l = l.
Proof.
  induction l as [|a l IH]; simpl; intros Hp; [reflexivity|].
  rewrite (Hp a (or_introl eq_refl)). f_equal. apply IH. eauto.
Qed.

Lemma DiffItems_observed_nil (desired : list Item) :
  DiffItems Key Equals desired [] = (desired, []).
Proof.
  unfold DiffItems. simpl. f_equal. now apply filter_all_true.
Qed.

Lemma DiffItems_desired_nil (observed : list Item) :
  DiffItems Key Equals [] observed = ([], observed).
Proof.
  unfold DiffItems. simpl. f_equal. now apply filter_all_true.
Qed.

End DiffFacts.

(** C2: with unique keys on each side, a desired item and an observed item
    with the same key that are not [Equals] land in [toWrite] (the desired
    one) and in [toDelete] (the observed one). *)
Theorem DiffItems_drift {Item : Type} (Key : Item -> string) (Equals : Item -> Item -> bool)
    (desired observed : list Item) (d o : Item)
    (Hud : unique_keys Key desired) (Huo : unique_keys Key observed)
    (Hd : In d desired) (Ho : In o observed)
    (Hkey : Key d = Key o) (Hneq : Equals d o = false) :
  In d (fst (DiffItems Key Equals desired observed)) /\
  In o (snd (DiffItems Key Equals desired observed)).
Proof.
  unfold DiffItems; simpl. split; apply filter_In; split; auto.
  - destruct (find_key Key d observed) as [o'|] eqn:Ef.
    + apply find_key_some in Ef as [Hin' Hk'].
      assert (o' = o) as -> by
        (apply (NoDup_map_same_key Key observed); auto; congruence).
      now rewrite Hneq.
    + exfalso. apply (find_key_none Key d observed o Ef Ho). congruence.
  - destruct (existsb _ desired) eqn:Ex; [|reflexivity].
    apply existsb_exists in Ex as [d' [Hin' Hc]].
    apply andb_true_iff in Hc as [Hk' He'].
    apply String.eqb_eq in Hk'.
    assert (d' = d) as -> by
      (apply (NoDup_map_same_key Key desired); auto; congruence).
    congruence.
Qed.

(** C3: on a converged state, [DiffItems X X] is empty on both sides, for
    unique keys and an [Equals] that, being a value equality, holds between
    an item and itself. *)
Theorem DiffItems_converged {Item : Type} (Key : Item -> string) (Equals : Item -> Item -> bool)
    (X : list Item) (Hu : unique_keys Key X)
    (Hrefl : forall x, In x X -> Equals x x = true) :
  DiffItems Key Equals X X = ([], []).
Proof.
  unfold DiffItems. f_equal; apply filter_all_false.
  - intros d Hd. destruct (find_key Key d X) as [o|] eqn:Ef.
    + apply find_key_some in Ef as [Hin Hk].
      assert (o = d) as -> by (apply (NoDup_map_same_key Key X); auto).
      now rewrite Hrefl.
    + exfalso. exact (find_key_none Key d X d Ef Hd eq_refl).
  - intros o Ho. apply negb_false_iff, existsb_exists.
    exists o. split; [exact Ho|]. now rewrite String.eqb_refl, Hrefl.
Qed.

(** C6: against an empty observed side, [toWrite] is the desired sequence
    itself and [toDelete] is empty; against an empty desired side,
    [toDelete] is the observed sequence itself and [toWrite] is empty. *)
Theorem DiffItems_one_side_empty {Item : Type} (Key : Item -> string)
    (Equals : Item -> Item -> bool) (desired observed : list Item) :
  DiffItems Key Equals desired [] = (desired, []) /\
  DiffItems Key Equals [] observed = ([], observed).
Proof.
  split; [apply DiffItems_observed_nil | apply DiffItems_desired_nil].
Qed.

End VaultFacts.

(* ------------------------------------------------------------------ *)
(** ** The audit configuration *)

Module AuditFacts.
Import Audit.
Local Open Scope list_scope.

Lemma bind_some {A B} t (a : A) (f : A -> M B) :
  bind (t, Some a) f = ((t ++ fst (f a))%list, snd (f a)).
Proof. simpl. now destruct (f a). Qed.

Lemma mapM_emit {A} (g : A -> event) (xs : list A) :
  mapM_ (fun x => emit (g x)) xs = (map g xs, Some tt).
Proof.
  induction xs as [|x xs IH]; [reflexivity|].
  simpl. rewrite IH. reflexivity.
Qed.

Lemma mutating_calls_app t t' :
  mutating_calls (t ++ t') = mutating_calls t ++ mutating_calls t'.
Proof. unfold mutating_calls. apply flat_map_app. Qed.

(** A loop whose body issues exactly one mutating call per element issues,
    in element order, either all of them or a prefix of them (when the
    process exits). *)
Lemma mapM_calls_prefix {A} (f : A -> M unit) (call : A -> remote_call) (xs : list A)
    (Hf : forall x, mutating_calls (fst (f x)) = [call x] /\
                    (snd (f x) = Some tt \/ snd (f x) = None)) :
  (snd (mapM_ f xs) = Some tt /\ mutating_calls (fst (mapM_ f xs)) = map call xs) \/
  (snd (mapM_ f xs) = None /\
   exists n, n <= length xs /\ mutating_calls (fst (mapM_ f xs)) = firstn n (map call xs)).
Proof.
  induction xs as [|x xs IH]; [left; split; reflexivity|].
  simpl. destruct (Hf x) as [Hc [Hs|Hs]]; destruct (f x) as [t r]; simpl in Hc, Hs; subst r.
  - rewrite bind_some. simpl. rewrite mutating_calls_app, Hc.
    destruct IH as [[Hs' Hc']|[Hs' [n [Hn Hc']]]].
    + left. split; [exact Hs'|]. now rewrite Hc'.
    + right. split; [exact Hs'|]. exists (S n). split; [simpl; lia|].
      now rewrite Hc'.
  - right. split; [reflexivity|]. exists 1. split; [simpl; lia|].
    simpl. exact Hc.
Qed.

Lemma enable_shape ok e :
  mutating_calls (fst (enable ok e)) = [enable_call e] /\
  (snd (enable ok e) = Some tt \/ snd (enable ok e) = None).
Proof.
  unfold enable. simpl.
  destruct (ok _); simpl; auto.
Qed.

Lemma disable_shape ok e :
  mutating_calls (fst (disable ok e)) = [disable_call e] /\
  (snd (disable ok e) = Some tt \/ snd (disable ok e) = None).
Proof. unfold disable. simpl. destruct (ok _); simpl; auto. Qed.

Lemma mapM_enable_all_ok ok xs :
  (forall c, ok c = true) ->
  mutating_calls (fst (mapM_ (enable ok) xs)) = map enable_call xs /\
  snd (mapM_ (enable ok) xs) = Some tt.
Proof.
  intros Hok. induction xs as [|x xs IH]; [split; reflexivity|].
  simpl. destruct (mapM_ (enable ok) xs) as [t r]. simpl in IH.
  destruct IH as [IHc ->]. unfold enable. simpl. rewrite Hok. simpl.
  rewrite IHc. split; reflexivity.
Qed.

Lemma mapM_disable_all_ok ok xs :
  (forall c, ok c = true) ->
  mutating_calls (fst (mapM_ (disable ok) xs)) = map disable_call xs /\
  snd (mapM_ (disable ok) xs) = Some tt.
Proof.
  intros Hok. induction xs as [|x xs IH]; [split; reflexivity|].
  simpl. destruct (mapM_ (disable ok) xs) as [t r]. simpl in IH.
  destruct IH as [IHc ->]. unfold disable. simpl. rewrite Hok. simpl.
  rewrite IHc. split; reflexivity.
Qed.

Lemma config_Apply_after_listing EP OE ok decode listing bytes dryRun es en :
  decode bytes = Some es -> listed listing = ([], Some en) ->
  config_Apply EP OE ok decode listing bytes dryRun =
  let D := Vault.DiffItems Key (item_Equals EP OE) (asItems es) (asItems (existingAudits en)) in
  (EvCall CListAudit :: fst (act ok dryRun (fst D) (snd D)),
   snd (act ok dryRun (fst D) (snd D))).
Proof.
  intros Hd Hl. unfold config_Apply, decoded. rewrite Hd.
  cbn -[Vault.DiffItems act listed]. rewrite Hl. cbn -[Vault.DiffItems act].
  destruct (Vault.DiffItems Key (item_Equals EP OE) (asItems es) (asItems (existingAudits en)))
    as [tw td].
  cbn -[act]. destruct (act ok dryRun tw td). reflexivity.
Qed.

Lemma dry_run_report ok tw td :
  act ok true tw td =
  (map (fun w => EvInfo "[Dry Run] entry to be written" (GEntry w)) tw ++
   map (fun d => EvInfo "[Dry Run] entry to be deleted" (GEntry d)) td, Some tt).
Proof.
  unfold act. rewrite (mapM_emit (fun w => EvInfo _ (GEntry w))).
  rewrite bind_some, (mapM_emit (fun d => EvInfo _ (GEntry d))). reflexivity.
Qed.

(** C7: with [dryRun = true] the audit handler issues no enable and no
    disable call, whatever the configuration, the listing and the remote
    answers; once decoding and listing succeed it logs every entry of
    [toWrite] and then every entry of [toDelete], and completes. *)
Theorem config_Apply_dry_run EP OE ok decode listing bytes :
  Forall (fun ev => is_mutation ev = false)
         (fst (config_Apply EP OE ok decode listing bytes true)) /\
  (forall es en, decode bytes = Some es -> listed listing = ([], Some en) ->
   let D := Vault.DiffItems Key (item_Equals EP OE) (asItems es) (asItems (existingAudits en)) in
   config_Apply EP OE ok decode listing bytes true =
   (EvCall CListAudit ::
      map (fun w => EvInfo "[Dry Run] entry to be written" (GEntry w)) (fst D) ++
      map (fun d => EvInfo "[Dry Run] entry to be deleted" (GEntry d)) (snd D),
    Some tt)).
Proof.
  split.
  - destruct (decode bytes) as [es|] eqn:Hd.
    2: { unfold config_Apply, decoded. rewrite Hd. repeat constructor. }
    assert (Hreport : forall en, listed listing = ([], Some en) ->
              Forall (fun ev => is_mutation ev = false)
                     (fst (config_Apply EP OE ok decode listing bytes true))).
    { intros en Hl. rewrite (config_Apply_after_listing _ _ _ _ _ _ _ _ _ Hd Hl).
      cbn -[act]. rewrite dry_run_report. cbn -[map].
      constructor; [reflexivity|].
      apply Forall_app; split; apply Forall_forall; intros ev Hin;
        apply list_elem_of_In, in_map_iff in Hin as [x [<- _]]; reflexivity. }
    destruct listing as [| |xs]; [|now apply (Hreport None)|now apply (Hreport (Some xs))].
    unfold config_Apply, decoded. rewrite Hd. repeat constructor.
  - intros es en Hd Hl. rewrite (config_Apply_after_listing _ _ _ _ _ _ _ _ _ Hd Hl).
    cbn -[act]. rewrite dry_run_report. reflexivity.
Qed.

(** C8: [entry.Equals] against a value whose concrete type is not [entry]
    (another type, or nil) is [false]; the type assertion is the comma-ok
    form, so no panic arises. *)
Theorem Equals_other_type EP OE (e : entry) (i : gvalue)
    (Hi : forall en, i <> GEntry en) :
  Equals EP OE e i = false.
Proof.
  destruct i as [en| | |]; [exfalso; exact (Hi en eq_refl)|reflexivity..].
Qed.

(** C9: without dry run, once decoding and listing succeed, the mutating
    calls issued are a prefix of: one enable per entry of [toWrite] in its
    order, followed by one disable per entry of [toDelete] in its order;
    when every remote call succeeds, they are exactly that sequence. *)
Theorem config_Apply_write_before_delete EP OE ok decode listing bytes es en
    (Hd : decode bytes = Some es) (Hl : listed listing = ([], Some en)) :
  let D := Vault.DiffItems Key (item_Equals EP OE) (asItems es) (asItems (existingAudits en)) in
  (exists n, mutating_calls (fst (config_Apply EP OE ok decode listing bytes false)) =
             firstn n (map enable_call (fst D) ++ map disable_call (snd D))) /\
  ((forall c, ok c = true) ->
   mutating_calls (fst (config_Apply EP OE ok decode listing bytes false)) =
   map enable_call (fst D) ++ map disable_call (snd D)).
Proof.
  intros D. rewrite (config_Apply_after_listing _ _ _ _ _ _ _ _ _ Hd Hl).
  cbv zeta. fold D. clearbody D. destruct D as [tw td].
  cbn [fst snd]. unfold act.
  split.
  - destruct (mapM_calls_prefix (enable ok) enable_call tw (enable_shape ok))
      as [[Hs Hc]|[Hs [n [Hn Hc]]]];
      destruct (mapM_ (enable ok) tw) as [t r]; simpl in Hs, Hc; subst r.
    + rewrite bind_some. simpl. rewrite mutating_calls_app, Hc.
      destruct (mapM_calls_prefix (disable ok) disable_call td (disable_shape ok))
        as [[_ Hc']|[_ [m [_ Hc']]]].
      * exists (length (map enable_call tw) + length (map disable_call td)).
        rewrite Hc', firstn_app, (firstn_all2 (map enable_call tw)) by lia.
        rewrite (Nat.add_comm (length (map enable_call tw))), Nat.add_sub, firstn_all.
        reflexivity.
      * exists (length (map enable_call tw) + m).
        rewrite Hc', firstn_app, (firstn_all2 (map enable_call tw)) by lia.
        rewrite (Nat.add_comm (length (map enable_call tw))), Nat.add_sub. reflexivity.
    + simpl. exists n. rewrite Hc, firstn_app.
      rewrite length_map. replace (n - length tw) with 0 by lia.
      simpl. now rewrite app_nil_r.
  - intros Hok.
    destruct (mapM_enable_all_ok ok tw Hok) as [Hc Hs].
    destruct (mapM_disable_all_ok ok td Hok) as [Hc' _].
    destruct (mapM_ (enable ok) tw) as [t r]; simpl in Hs, Hc; subst r.
    rewrite bind_some. simpl. now rewrite mutating_calls_app, Hc, Hc'.
Qed.

(** C10: a nil listing yields the empty observed sequence, so [toWrite] is
    the decoded configuration itself and [toDelete] is empty. *)
Theorem config_Apply_nil_listing EP OE (es : list entry) :
  listed ListNil = ([], Some None) /\
  existingAudits None = [] /\
  Vault.DiffItems Key (item_Equals EP OE) (asItems es) (asItems (existingAudits None)) = (es, []).
Proof.
  split; [reflexivity|]. split; [reflexivity|].
  simpl. unfold asItems. rewrite map_id.
  apply VaultFacts.DiffItems_observed_nil.
Qed.

End AuditFacts.

(* ------------------------------------------------------------------ *)
(** ** Further properties of the registry and of the audit package *)

Module ExtraFacts.

Module Reg.
Import Toplevel.

(** A successful registration inserts the handler under the lower-cased
    name, and leaves the rest of the map as it was. *)
Lemma RegisterConfiguration_ok_inv {H : Type} (ToLower : string -> string)
    (configs r : gmap string H) name c :
  RegisterConfiguration ToLower configs name c = RegOk r ->
  name <> "" /\ configs !! ToLower name = None /\
  exists h, c = Some h /\ r = <[ToLower name := h]> configs.
Proof.
  unfold RegisterConfiguration.
  destruct (String.eqb name "") eqn:Ename; [discriminate|].
  intros Hr. split; [intros ->; discriminate|]. revert Hr.
  destruct c as [h|]; [|discriminate].
  cbv zeta. match goal with |- context [match ?x with Some _ => _ | None => _ end] =>
    destruct x eqn:Ehit end; intros Hr; [discriminate|].
  injection Hr as <-. split; [exact Ehit|]. eauto.
Qed.

(** X1: after a successful [RegisterConfiguration name h], [Apply] with the
    lower-cased name calls [h] once with the bytes and flag unchanged. *)
Theorem Register_then_Apply_lower {H : Type} (ToLower : string -> string)
    (configs r : gmap string H)
    name h cfg dryRun
    (Hreg : RegisterConfiguration ToLower configs name (Some h) = RegOk r) :
  Apply r (ToLower name) cfg dryRun = [TCall h cfg dryRun].
Proof.
  apply RegisterConfiguration_ok_inv in Hreg as (_ & _ & h' & Hh & ->).
  injection Hh as <-. unfold Apply, registry. now rewrite lookup_insert_eq.
Qed.

(** X2: a successful registration never drops or changes an entry that was
    already registered: every earlier name keeps its handler, and [Apply]
    on any other key behaves as before. *)
Theorem Register_keeps_entries {H : Type} (ToLower : string -> string)
    (configs r : gmap string H)
    name c
    (Hreg : RegisterConfiguration ToLower configs name c = RegOk r) :
  (forall k v, configs !! k = Some v -> r !! k = Some v) /\
  (forall k cfg dryRun, k <> ToLower name -> Apply r k cfg dryRun = Apply configs k cfg dryRun).
Proof.
  apply RegisterConfiguration_ok_inv in Hreg as (_ & Hnone & h & _ & ->).
  split.
  - intros k v Hk. rewrite lookup_insert_ne; [exact Hk|].
    intros <-. congruence.
  - intros k cfg dryRun Hk. unfold Apply, registry. rewrite lookup_insert_ne; [reflexivity|].
    intros Heq. apply Hk. symmetry. exact Heq.
Qed.

(** X3: once a name is registered, registering any name with the same
    lower-cased form panics, whatever the handler. *)
Theorem Register_twice_case_insensitive {H : Type} (ToLower : string -> string)
    (configs r : gmap string H)
    name name' h c'
    (Hreg : RegisterConfiguration ToLower configs name (Some h) = RegOk r)
    (Hcase : ToLower name' = ToLower name) :
  exists msg, RegisterConfiguration ToLower r name' c' = RegPanic msg.
Proof.
  apply RegisterConfiguration_ok_inv in Hreg as (_ & _ & h' & _ & ->).
  unfold RegisterConfiguration, registry.
  destruct (String.eqb name' ""); [eauto|].
  destruct c' as [h''|]; [|eauto].
  rewrite Hcase, lookup_insert_eq. eauto.
Qed.

End Reg.

Module Ent.
Import Audit.

(** X5: [entry.Equals] never equates two entries whose [Type] or
    [Description] differ, whatever the path and option comparisons say. *)
Theorem Equals_true_same_type_description EP OE (e e' : entry) :
  Equals EP OE e (GEntry e') = true ->
  Type_ e = Type_ e' /\ Description e = Description e'.
Proof.
  simpl. intros Hq. apply andb_true_iff in Hq as [Hq _].
  apply andb_true_iff in Hq as [Hq Hd]. apply andb_true_iff in Hq as [_ Ht].
  split; now apply String.eqb_eq.
Qed.

(** X6: an entry [Equals] itself when the path and options comparisons it
    delegates to are reflexive. *)
Theorem Equals_refl EP OE (e : entry)
    (HEP : forall p, EP p p = true) (HOE : forall m, OE m m = true) :
  Equals EP OE e (GEntry e) = true.
Proof. simpl. now rewrite HEP, !String.eqb_refl, HOE. Qed.

End Ent.

Module Run.
Import Audit.
Import AuditFacts.
Local Open Scope list_scope.

(** Trace of one successful [enable] / [disable]. *)
Definition enabled_trace (e : entry) : list event :=
  [EvCall (enable_call e); EvInfo "audit successfully enabled" (GString (Path e))].

Definition disabled_trace (e : entry) : list event :=
  [EvCall (disable_call e); EvInfo "audit successfully disabled" (GString (Path e))].

Lemma mapM_enable_trace ok xs :
  (forall c, ok c = true) ->
  mapM_ (enable ok) xs = (flat_map enabled_trace xs, Some tt).
Proof.
  intros Hok. induction xs as [|x xs IH]; [reflexivity|].
  simpl. rewrite IH. unfold enable. simpl. rewrite Hok. reflexivity.
Qed.

Lemma mapM_disable_trace ok xs :
  (forall c, ok c = true) ->
  mapM_ (disable ok) xs = (flat_map disabled_trace xs, Some tt).
Proof.
  intros Hok. induction xs as [|x xs IH]; [reflexivity|].
  simpl. rewrite IH. unfold disable. simpl. rewrite Hok. reflexivity.
Qed.

Lemma mapM_exits {A} (f : A -> M unit) xs x :
  In x xs -> snd (f x) = None -> snd (mapM_ f xs) = None.
Proof.
  induction xs as [|y xs IH]; simpl; [contradiction|].
  intros [->|Hin] Hx.
  - destruct (f x) as [t r]. simpl in Hx. now subst r.
  - destruct (f y) as [t [u|]]; [|reflexivity].
    rewrite bind_some. simpl. now apply IH.
Qed.

(** X7: when the configuration cannot be decoded, the handler logs a fatal
    error and exits before any remote call, the listing included. *)
Theorem config_Apply_decode_error EP OE ok decode listing bytes dryRun
    (Hd : decode bytes = None) :
  config_Apply EP OE ok decode listing bytes dryRun =
  ([EvFatal "failed to decode Audit Devices configuration"], None).
Proof. unfold config_Apply, decoded. now rewrite Hd. Qed.

(** X8: when the listing fails, the handler exits right after the listing
    call: no enable, no disable and no dry-run report. *)
Theorem config_Apply_listing_error EP OE ok decode bytes dryRun es
    (Hd : decode bytes = Some es) :
  config_Apply EP OE ok decode ListErr bytes dryRun =
  ([EvCall CListAudit; EvFatal "failed to list Audit Devices from Vault instance"], None).
Proof. unfold config_Apply, decoded. now rewrite Hd. Qed.

(** X9: without dry run, when every remote call succeeds, the handler lists,
    enables each entry to be written (each followed by its success log),
    disables each entry to be deleted (likewise), and completes. *)
Theorem config_Apply_all_ok EP OE ok decode listing bytes es en tw td
    (Hd : decode bytes = Some es) (Hl : listed listing = ([], Some en))
    (HD : Vault.DiffItems Key (item_Equals EP OE) (asItems es) (asItems (existingAudits en))
          = (tw, td))
    (Hok : forall c, ok c = true) :
  config_Apply EP OE ok decode listing bytes false =
  (EvCall CListAudit :: flat_map enabled_trace tw ++ flat_map disabled_trace td, Some tt).
Proof.
  rewrite (config_Apply_after_listing _ _ _ _ _ _ _ _ _ Hd Hl). cbv zeta.
  rewrite HD. cbn [fst snd act].
  rewrite (mapM_enable_trace ok tw Hok), bind_some, (mapM_disable_trace ok td Hok).
  reflexivity.
Qed.

(** X10: without dry run, if enabling one of the entries to be written
    fails, the process exits and no disable call is ever issued. *)
Theorem config_Apply_enable_failure EP OE ok decode listing bytes es en tw td e
    (Hd : decode bytes = Some es) (Hl : listed listing = ([], Some en))
    (HD : Vault.DiffItems Key (item_Equals EP OE) (asItems es) (asItems (existingAudits en))
          = (tw, td))
    (He : In e tw) (Hfail : ok (enable_call e) = false) :
  snd (config_Apply EP OE ok decode listing bytes false) = None /\
  forall p, ~ In (CDisableAudit p) (mutating_calls (fst (config_Apply EP OE ok decode listing bytes false))).
Proof.
  rewrite (config_Apply_after_listing _ _ _ _ _ _ _ _ _ Hd Hl). cbv zeta.
  rewrite HD. cbn [fst snd act].
  assert (Hx : snd (mapM_ (enable ok) tw) = None).
  { apply (mapM_exits _ tw e He). unfold enable. simpl.
    unfold enable_call in Hfail. now rewrite Hfail. }
  pose proof (mapM_calls_prefix (enable ok) enable_call tw (enable_shape ok)) as Hpre.
  destruct (mapM_ (enable ok) tw) as [t r]. simpl in Hx, Hpre. subst r.
  simpl. split; [reflexivity|]. intros p Hin.
  destruct Hpre as [[Hs _]|[_ [n [_ Hc]]]]; [discriminate|].
  rewrite Hc in Hin.
  assert (Hin' : In (CDisableAudit p) (map enable_call tw)).
  { rewrite <- (firstn_skipn n (map enable_call tw)). apply in_or_app. now left. }
  apply in_map_iff in Hin' as [x [Hx _]]. discriminate.
Qed.

End Run.

End ExtraFacts.

(* ------------------------------------------------------------------ *)
(** ** Instances on concrete inputs *)

Module Witnesses.
Import Audit.

Definition eq_snd (a b : string * nat) : bool := Nat.eqb (snd a) (snd b).

Definition eq_pair (a b : string * nat) : bool :=
  String.eqb (fst a) (fst b) && Nat.eqb (snd a) (snd b).

Lemma DiffItems_drift_witness :
  In ("k", 1) (fst (Vault.DiffItems fst eq_snd [("k", 1)] [("k", 2)])) /\
  In ("k", 2) (snd (Vault.DiffItems fst eq_snd [("k", 1)] [("k", 2)])).
Proof.
  apply (VaultFacts.DiffItems_drift fst eq_snd [("k", 1)] [("k", 2)] ("k", 1) ("k", 2)).
  - apply NoDup_singleton.
  - apply NoDup_singleton.
  - simpl. left. reflexivity.
  - simpl. left. reflexivity.
  - reflexivity.
  - reflexivity.
Defined.

Lemma DiffItems_converged_witness :
  Vault.DiffItems fst eq_pair [("a", 1); ("b", 2)] [("a", 1); ("b", 2)] = ([], []).
Proof.
  apply (VaultFacts.DiffItems_converged fst eq_pair [("a", 1); ("b", 2)]).
  - unfold Vault.unique_keys. simpl. apply (bool_decide_unpack _). vm_compute. exact I.
  - intros [s n] _. unfold eq_pair. simpl.
    rewrite String.eqb_refl, Nat.eqb_refl. reflexivity.
Defined.

Lemma Equals_other_type_witness :
  Equals String.eqb (fun _ _ => true) (mk_entry "/audit1" "file" "" ∅) (GOther "int") = false.
Proof.
  apply (AuditFacts.Equals_other_type String.eqb (fun _ _ => true)
           (mk_entry "/audit1" "file" "" ∅) (GOther "int")).
  intros en. discriminate.
Defined.

Definition w_e1 : entry := mk_entry "/audit1" "file" "" ∅.
Definition w_a2 : api_audit := mk_api_audit "/audit2" "file" "" ∅.

Lemma config_Apply_write_before_delete_witness :
  mutating_calls
    (fst (config_Apply String.eqb (fun _ _ => true) (fun _ => true)
            (fun _ => Some [w_e1]) (ListMap [w_a2]) [] false)) =
  [enable_call w_e1; CDisableAudit "/audit2"].
Proof.
  refine (proj2 (AuditFacts.config_Apply_write_before_delete
                   String.eqb (fun _ _ => true) (fun _ => true)
                   (fun _ => Some [w_e1]) (ListMap [w_a2]) [] [w_e1] (Some [w_a2])
                   eq_refl eq_refl) _).
  intros c. reflexivity.
Defined.

End Witnesses.

Module ExtraWitnesses.
Import Audit.

Definition w_reg : gmap string nat := <["audit" := 7]> ∅.

Lemma Register_then_Apply_lower_witness :
  Toplevel.Apply w_reg (ToLower_ascii "Audit") [] true = [Toplevel.TCall 7 [] true].
Proof.
  apply (ExtraFacts.Reg.Register_then_Apply_lower ToLower_ascii ∅ w_reg "Audit" 7 [] true).
  vm_compute. reflexivity.
Defined.

Lemma Register_keeps_entries_witness :
  (forall k v, (<["audit" := 7]> ∅ : gmap string nat) !! k = Some v ->
               (<["kv" := 3]> (<["audit" := 7]> ∅) : gmap string nat) !! k = Some v) /\
  (forall k cfg dryRun, k <> ToLower_ascii "KV" ->
     Toplevel.Apply (<["kv" := 3]> (<["audit" := 7]> ∅) : gmap string nat) k cfg dryRun =
     Toplevel.Apply (<["audit" := 7]> ∅ : gmap string nat) k cfg dryRun).
Proof.
  apply (ExtraFacts.Reg.Register_keeps_entries ToLower_ascii (<["audit" := 7]> ∅)
           (<["kv" := 3]> (<["audit" := 7]> ∅)) "KV" (Some 3)).
  vm_compute. reflexivity.
Defined.

Lemma Register_twice_case_insensitive_witness :
  exists msg, Toplevel.RegisterConfiguration ToLower_ascii w_reg "AUDIT" (Some 8) = Toplevel.RegPanic msg.
Proof.
  apply (ExtraFacts.Reg.Register_twice_case_insensitive ToLower_ascii ∅ w_reg "audit" "AUDIT" 7 (Some 8)).
  - vm_compute. reflexivity.
  - reflexivity.
Defined.

Definition w_e : entry := mk_entry "/audit1" "file" "log" ∅.

Lemma Equals_true_same_type_description_witness :
  Type_ w_e = Type_ w_e /\ Description w_e = Description w_e.
Proof.
  apply (ExtraFacts.Ent.Equals_true_same_type_description String.eqb (fun _ _ => true) w_e w_e).
  reflexivity.
Defined.

Lemma Equals_refl_witness :
  Equals String.eqb (fun _ _ => true) w_e (GEntry w_e) = true.
Proof.
  apply (ExtraFacts.Ent.Equals_refl String.eqb (fun _ _ => true) w_e).
  - intros p. apply String.eqb_refl.
  - intros m. reflexivity.
Defined.

Lemma config_Apply_decode_error_witness :
  config_Apply String.eqb (fun _ _ => true) (fun _ => true) (fun _ => None) ListNil [] true =
  ([EvFatal "failed to decode Audit Devices configuration"], None).
Proof.
  apply (ExtraFacts.Run.config_Apply_decode_error String.eqb (fun _ _ => true) (fun _ => true)
           (fun _ => None) ListNil [] true).
  reflexivity.
Defined.

Lemma config_Apply_listing_error_witness :
  config_Apply String.eqb (fun _ _ => true) (fun _ => true) (fun _ => Some [w_e]) ListErr [] false =
  ([EvCall CListAudit; EvFatal "failed to list Audit Devices from Vault instance"], None).
Proof.
  apply (ExtraFacts.Run.config_Apply_listing_error String.eqb (fun _ _ => true) (fun _ => true)
           (fun _ => Some [w_e]) [] false [w_e]).
  reflexivity.
Defined.

Definition w_old : api_audit := mk_api_audit "/audit2" "file" "" ∅.
Definition w_old_entry : entry := mk_entry "/audit2" "file" "" ∅.

Lemma config_Apply_all_ok_witness :
  config_Apply String.eqb (fun _ _ => true) (fun _ => true) (fun _ => Some [w_e])
    (ListMap [w_old]) [] false =
  (EvCall CListAudit :: ExtraFacts.Run.enabled_trace w_e ++ ExtraFacts.Run.disabled_trace w_old_entry,
   Some tt).
Proof.
  apply (ExtraFacts.Run.config_Apply_all_ok String.eqb (fun _ _ => true) (fun _ => true)
           (fun _ => Some [w_e]) (ListMap [w_old]) [] [w_e] (Some [w_old])
           [w_e] [w_old_entry]).
  - reflexivity.
  - reflexivity.
  - vm_compute. reflexivity.
  - intros c. reflexivity.
Defined.

Definition w_enable_fails (c : remote_call) : bool :=
  match c with CEnableAudit _ _ _ _ => false | _ => true end.

Lemma config_Apply_enable_failure_witness :
  snd (config_Apply String.eqb (fun _ _ => true) w_enable_fails (fun _ => Some [w_e])
         (ListMap [w_old]) [] false) = None /\
  forall p, ~ In (CDisableAudit p)
    (mutating_calls (fst (config_Apply String.eqb (fun _ _ => true) w_enable_fails
                            (fun _ => Some [w_e]) (ListMap [w_old]) [] false))).
Proof.
  apply (ExtraFacts.Run.config_Apply_enable_failure String.eqb (fun _ _ => true) w_enable_fails
           (fun _ => Some [w_e]) (ListMap [w_old]) [] [w_e] (Some [w_old])
           [w_e] [w_old_entry] w_e).
  - reflexivity.
  - reflexivity.
  - vm_compute. reflexivity.
  - simpl. left. reflexivity.
  - reflexivity.
Defined.

End ExtraWitnesses.
